(** * json_to_autogen_py: a shallow embedding and its verified properties

    The development embeds [A_my_tools/json_to_autogen_py.py], the generator
    that turns an AutoGen Studio JSON document into a Python program, together
    with the parts of the Python library it calls ([str.rsplit], [repr],
    [sorted], [pprint.pformat], [textwrap.dedent], [str.strip]).

    Conventions of the embedding:
    - a Python [str] is a [string] whose characters are code points below 256;
    - a Python [int] is a [Z]; a [float] is kept as the text of its [repr]
      (floating-point arithmetic itself is not part of the model);
    - a [dict] is an association list in insertion order whose keys are
      pairwise distinct ([wf_value]); a [set] is a [gset];
    - a call either returns a value or raises an exception ([outcome]);
      an object mutated in place is threaded through as explicit state;
    - [json.loads] and the file system stay outside: the generator is given
      the tree that was loaded and returns the text that it writes;
    - [str.format], which renders a registered template, is a parameter;
    - the limits of the interpreter (recursion depth, the cap on the number
      of digits of an [int] turned into text) are not modelled. *)

From Stdlib Require Import ZArith List Ascii String Lia Permutation Bool.
From Stdlib Require Import DecimalString DecimalPos DecimalZ Sorted.
From stdpp Require Import base option list strings gmap.

Set Warnings "-register-all,-clear-no-such-hyp".
Local Open Scope Z_scope.
#[global] Arguments String.append !s1 s2 : simpl nomatch.

(* ================================================================== *)
(** ** Python values, exceptions and builtins *)
(* ================================================================== *)

Module Py.

(** An exception object: the name of its class and its message. *)
Record exc : Type := Exc { exc_type : string; exc_msg : string }.

(** The result of a call: a value, or a raised exception. *)
Inductive outcome (A : Type) : Type :=
| Returns (a : A)
| Raises (e : exc).
Arguments Returns {A} a.
Arguments Raises {A} e.

Definition raised {A} (m : outcome A) (ty : string) : Prop :=
  ∃ msg, m = Raises (Exc ty msg).

(** A computation over a mutable object of type [S]: it leaves the object
    in some state and returns or raises. *)
Definition stateful (S A : Type) : Type := S → S * outcome A.

Definition sret {S A} (a : A) : stateful S A := λ st, (st, Returns a).
Definition sraise {S A} (e : exc) : stateful S A := λ st, (st, Raises e).
Definition slift {S A} (m : outcome A) : stateful S A := λ st, (st, m).
Definition sget {S} : stateful S S := λ st, (st, Returns st).
Definition smodify {S} (f : S → S) : stateful S unit := λ st, (f st, Returns tt).
Definition sbind {S A B} (m : stateful S A) (k : A → stateful S B) : stateful S B :=
  λ st, match m st with
        | (st', Returns a) => k a st'
        | (st', Raises e) => (st', Raises e)
        end.

Notation "x <~ m ;; k" := (sbind m (λ x, k))
  (at level 100, m at next level, right associativity).
Notation "m ;;; k" := (sbind m (λ _, k))
  (at level 100, right associativity).

Definition ValueError (msg : string) : exc := Exc "ValueError" msg.
Definition AttributeError (msg : string) : exc := Exc "AttributeError" msg.

(** The values the generator handles: what [json.loads] builds ([None],
    [bool], [int], [float], [str], [list], [dict] with [str] keys), and
    [POther cls r] for an object of any other class [cls] whose [repr] is
    [r]: it has none of the methods of [str], and [pprint] has no layout of
    its own for it. *)
Inductive value : Type :=
| PNone
| PBool (b : bool)
| PInt (z : Z)
| PFloat (r : string)
| PStr (s : string)
| PList (l : list value)
| PDict (items : list (string * value))
| POther (cls r : string).

(** Induction over the nesting of lists and dicts. *)
Section value_induction.
Variable P : value → Prop.
Hypothesis HNone : P PNone.
Hypothesis HBool : ∀ b, P (PBool b).
Hypothesis HInt : ∀ z, P (PInt z).
Hypothesis HFloat : ∀ r, P (PFloat r).
Hypothesis HStr : ∀ s, P (PStr s).
Hypothesis HList : ∀ l, Forall P l → P (PList l).
Hypothesis HDict : ∀ items, Forall (λ kv, P (snd kv)) items → P (PDict items).
Hypothesis HOther : ∀ cls r, P (POther cls r).

Fixpoint value_nested_ind (v : value) : P v :=
  match v with
  | PNone => HNone
  | PBool b => HBool b
  | PInt z => HInt z
  | PFloat r => HFloat r
  | PStr s => HStr s
  | PList l =>
      HList l ((fix go (l : list value) : Forall P l :=
                  match l with
                  | [] => List.Forall_nil P
                  | x :: r => List.Forall_cons P x r (value_nested_ind x) (go r)
                  end) l)
  | PDict items =>
      HDict items
        ((fix go (l : list (string * value)) : Forall (λ kv, P (snd kv)) l :=
            match l with
            | [] => List.Forall_nil _
            | kv :: r =>
                List.Forall_cons (λ kv, P (snd kv)) kv r (value_nested_ind (snd kv)) (go r)
            end) items)
  | POther cls r => HOther cls r
  end.
End value_induction.

(** [type(v).__name__] *)
Definition type_name (v : value) : string :=
  match v with
  | PNone => "NoneType"
  | PBool _ => "bool"
  | PInt _ => "int"
  | PFloat _ => "float"
  | PStr _ => "str"
  | PList _ => "list"
  | PDict _ => "dict"
  | POther cls _ => cls
  end.

(* ------------------------------------------------------------------ *)
(** *** Strings *)

Definition NL : ascii := "010"%char.
Definition CR : ascii := "013"%char.
Definition TAB : ascii := "009"%char.
Definition SQUOTE : ascii := "039"%char.
Definition DQUOTE : ascii := "034"%char.
Definition BACKSLASH : ascii := "092"%char.

Definition chr (c : ascii) : string := String c EmptyString.
Definition nl : string := chr NL.
Definition dq : string := chr DQUOTE.

(** [len(s)] *)
Definition len (s : string) : Z := Z.of_nat (String.length s).

(** [' ' * n]: empty when [n <= 0]. *)
Definition spaces (n : Z) : string :=
  Nat.iter (Z.to_nat n) (String " "%char) EmptyString.

(** [sep.join(parts)] *)
Fixpoint join (sep : string) (parts : list string) : string :=
  match parts with
  | [] => EmptyString
  | [x] => x
  | x :: rest => x +:+ sep +:+ join sep rest
  end.

(** [s.rsplit(".", 1)]: cut at the last separator, if there is one. *)
Fixpoint rcut (sep : ascii) (s : string) : option (string * string) :=
  match s with
  | EmptyString => None
  | String c rest =>
      match rcut sep rest with
      | Some (a, b) => Some (String c a, b)
      | None => if Ascii.eqb c sep then Some (EmptyString, rest) else None
      end
  end.

Definition rsplit1 (sep : ascii) (s : string) : list string :=
  match rcut sep s with
  | Some (a, b) => [a; b]
  | None => [s]
  end.

Definition code (c : ascii) : N := N_of_ascii c.

(** [c.isspace()], also the class [\s] of [re] on [str] patterns. *)
Definition isspace (c : ascii) : bool :=
  let n := code c in
  ((9 <=? n) && (n <=? 13) || (28 <=? n) && (n <=? 32) || (n =? 133) || (n =? 160))%N.

(** [c.isprintable()], which [repr] consults. *)
Definition isprintable (c : ascii) : bool :=
  let n := code c in
  ((32 <=? n) && (n <? 127) || (161 <=? n) && negb (n =? 173))%N.

(** The line boundaries of [str.splitlines]. *)
Definition islinebreak (c : ascii) : bool :=
  let n := code c in
  ((10 <=? n) && (n <=? 13) || (28 <=? n) && (n <=? 30) || (n =? 133))%N.

Definition hexdigit (n : N) : ascii :=
  ascii_of_N (if (n <? 10)%N then 48 + n else 87 + n)%N.

(** The escape [\xHH] of [repr]. *)
Definition hex_escape (c : ascii) : string :=
  String BACKSLASH (String "x"%char
    (String (hexdigit (code c / 16)) (String (hexdigit (code c mod 16)) EmptyString))).

Fixpoint contains_char (c : ascii) (s : string) : bool :=
  match s with
  | EmptyString => false
  | String d rest => Ascii.eqb c d || contains_char c rest
  end.

(** [repr] picks double quotes exactly when the text has a single quote
    and no double quote. *)
Definition repr_quote (s : string) : ascii :=
  if contains_char SQUOTE s && negb (contains_char DQUOTE s) then DQUOTE else SQUOTE.

Definition repr_char (quote c : ascii) : string :=
  if Ascii.eqb c quote || Ascii.eqb c BACKSLASH then String BACKSLASH (chr c)
  else if Ascii.eqb c TAB then String BACKSLASH (chr "t"%char)
  else if Ascii.eqb c NL then String BACKSLASH (chr "n"%char)
  else if Ascii.eqb c CR then String BACKSLASH (chr "r"%char)
  else if isprintable c then chr c
  else hex_escape c.

Fixpoint repr_body (quote : ascii) (s : string) : string :=
  match s with
  | EmptyString => EmptyString
  | String c rest => repr_char quote c +:+ repr_body quote rest
  end.

(** [repr(s)] for a [str]. *)
Definition repr_str (s : string) : string :=
  let q := repr_quote s in
  String q (repr_body q s +:+ chr q).

(** [repr(n)] for an [int]. *)
Definition repr_int (z : Z) : string := NilZero.string_of_int (Z.to_int z).

(** [s.splitlines(True)] *)
Fixpoint splitlines_keepends (s : string) : list string :=
  match s with
  | EmptyString => []
  | String c rest =>
      if islinebreak c then
        match rest with
        | String d rest' =>
            if Ascii.eqb c CR && Ascii.eqb d NL
            then String c (chr d) :: splitlines_keepends rest'
            else chr c :: splitlines_keepends rest
        | EmptyString => [chr c]
        end
      else
        match splitlines_keepends rest with
        | [] => [chr c]
        | line :: lines => String c line :: lines
        end
  end.

Definition starts_with_space (s : string) : bool :=
  match s with
  | EmptyString => false
  | String c _ => isspace c
  end.

(** [re.findall(r'\S*\s*', s)] without its final empty match: the text cut
    after every run of white space. *)
Fixpoint words_with_space (s : string) : list string :=
  match s with
  | EmptyString => []
  | String c rest =>
      match words_with_space rest with
      | [] => [chr c]
      | p :: ps =>
          if isspace c && negb (starts_with_space p)
          then chr c :: p :: ps
          else String c p :: ps
      end
  end.

(** [s.lstrip()], [s.rstrip()], [s.strip()] *)
Fixpoint lstrip (s : string) : string :=
  match s with
  | EmptyString => EmptyString
  | String c rest => if isspace c then lstrip rest else s
  end.

Fixpoint rstrip (s : string) : string :=
  match s with
  | EmptyString => EmptyString
  | String c rest =>
      match rstrip rest with
      | EmptyString => if isspace c then EmptyString else chr c
      | r => String c r
      end
  end.

Definition strip (s : string) : string := lstrip (rstrip s).

(** [sorted(items)] for pairs with [str] keys: a stable sort that compares
    with [<] on the keys only, as the comparison of tuples never gets past
    keys that differ. *)
Fixpoint insert_by_key {A} (x : string * A) (l : list (string * A)) : list (string * A) :=
  match l with
  | [] => [x]
  | y :: rest =>
      if String.ltb (fst y) (fst x) then y :: insert_by_key x rest else x :: l
  end.

Fixpoint sorted_items {A} (l : list (string * A)) : list (string * A) :=
  match l with
  | [] => []
  | x :: rest => insert_by_key x (sorted_items rest)
  end.

(** [sorted(xs)] for a list of [str]. *)
Definition sorted_strs (l : list string) : list string :=
  map fst (sorted_items (map (λ s, (s, tt)) l)).

(* ------------------------------------------------------------------ *)
(** *** Dicts *)

(** [key in d], [d.get(key)] and [d[key]] on a dict's items. *)
Fixpoint dict_get (key : string) (items : list (string * value)) : option value :=
  match items with
  | [] => None
  | (k, v) :: rest => if String.eqb k key then Some v else dict_get key rest
  end.

Definition dict_contains (key : string) (items : list (string * value)) : bool :=
  match dict_get key items with Some _ => true | None => false end.

(** The keys of a dict are pairwise distinct, at every level. *)
Fixpoint distinct (ks : list string) : bool :=
  match ks with
  | [] => true
  | k :: rest => negb (existsb (String.eqb k) rest) && distinct rest
  end.

Fixpoint wf_value (v : value) : bool :=
  match v with
  | PList l => forallb wf_value l
  | PDict items =>
      distinct (map fst items) && forallb (λ kv, wf_value (snd kv)) items
  | _ => true
  end.

End Py.
Import Py.

(* ================================================================== *)
(** ** [textwrap.dedent] *)
(* ================================================================== *)

Module Textwrap.

(** [text.split("\n")] *)
Fixpoint split_nl (s : string) : list string :=
  match s with
  | EmptyString => [EmptyString]
  | String c rest =>
      if Ascii.eqb c NL then EmptyString :: split_nl rest
      else match split_nl rest with
           | [] => [chr c]
           | line :: lines => String c line :: lines
           end
  end.

Definition is_blank (c : ascii) : bool := Ascii.eqb c " "%char || Ascii.eqb c TAB.

Fixpoint all_blank (s : string) : bool :=
  match s with
  | EmptyString => true
  | String c rest => is_blank c && all_blank rest
  end.

(** The leading spaces and tabs that [_leading_whitespace_re] captures. *)
Fixpoint leading_blanks (s : string) : string :=
  match s with
  | EmptyString => EmptyString
  | String c rest => if is_blank c then String c (leading_blanks rest) else EmptyString
  end.

(** [_whitespace_only_re.sub('', text)], line by line. *)
Definition blank_out (line : string) : string :=
  if all_blank line then EmptyString else line.

(** [a.startswith(b)] *)
Fixpoint startswith (a b : string) : bool :=
  match b, a with
  | EmptyString, _ => true
  | String y b', String x a' => Ascii.eqb x y && startswith a' b'
  | String _ _, EmptyString => false
  end.

(** The loop over [zip(margin, indent)] that cuts the margin at the first
    position where the two differ. *)
Fixpoint common_prefix (margin indent : string) : string :=
  match margin, indent with
  | String x m', String y i' =>
      if Ascii.eqb x y then String x (common_prefix m' i') else EmptyString
  | _, _ => margin
  end.

Definition narrow (margin : option string) (indent : string) : option string :=
  match margin with
  | None => Some indent
  | Some m =>
      if startswith indent m then Some m
      else if startswith m indent then Some indent
      else Some (common_prefix m indent)
  end.

(** [a[len(b):]] when [a.startswith(b)], else [a]: one line of
    [re.sub('(?m)^' + margin, '', text)]. *)
Fixpoint remove_prefix (margin line : string) : option string :=
  match margin, line with
  | EmptyString, _ => Some line
  | String y m', String x l' => if Ascii.eqb x y then remove_prefix m' l' else None
  | String _ _, EmptyString => None
  end.

Definition cut_margin (margin line : string) : string :=
  match remove_prefix margin line with
  | Some rest => rest
  | None => line
  end.

Definition dedent (text : string) : string :=
  let lines := map blank_out (split_nl text) in
  let indents := map leading_blanks (List.filter (λ l, negb (all_blank l)) lines) in
  match fold_left narrow indents None with
  | Some (String c m) => join nl (map (cut_margin (String c m)) lines)
  | _ => join nl lines
  end.

End Textwrap.
Import Textwrap.

(* ================================================================== *)
(** ** [pprint.PrettyPrinter] with [compact=False], [sort_dicts=True],
       [depth=None], on a tree without cycles *)
(* ================================================================== *)

Module PPrint.

Section PrettyPrinter.
Variable _indent_per_level : Z.
Variable _width : Z.

(** What writes at a given [indent], [allowance] and [level]. *)
Definition writer : Type := Z → Z → Z → string.

(** [_safe_repr]: the one-line form. The items of a dict are rendered,
    then put in key order. *)
Fixpoint _safe_repr (object : value) : string :=
  match object with
  | PNone => "None"
  | PBool true => "True"
  | PBool false => "False"
  | PInt z => repr_int z
  | PFloat r => r
  | PStr s => repr_str s
  | PList [] => "[]"
  | PList l => "[" +:+ join ", " (map _safe_repr l) +:+ "]"
  | PDict [] => "{}"
  | PDict items =>
      "{" +:+ join ", "
        (map (λ kr : string * string, repr_str (fst kr) +:+ ": " +:+ snd kr)
           (sorted_items (map (λ kv, (fst kv, _safe_repr (snd kv))) items)))
      +:+ "}"
  | POther _ r => r
  end.

(** The inner loop of [_pprint_str] over the parts of one line. *)
Fixpoint wrap_parts (max_width allowance : Z) (last_line : bool)
    (parts : list string) (current : string) : list string :=
  match parts with
  | [] => if String.eqb current EmptyString then [] else [repr_str current]
  | part :: rest =>
      let candidate := current +:+ part in
      let max_width2 :=
        match rest with
        | [] => if last_line then max_width - allowance else max_width
        | _ => max_width
        end in
      if len (repr_str candidate) >? max_width2
      then (if String.eqb current EmptyString then [] else [repr_str current])
             ++ wrap_parts max_width allowance last_line rest part
      else wrap_parts max_width allowance last_line rest candidate
  end.

(** The outer loop of [_pprint_str]: the chunks of every line. *)
Fixpoint str_chunks (max_width allowance : Z) (lines : list string) : list string :=
  match lines with
  | [] => []
  | line :: rest =>
      let last := match rest with [] => true | _ => false end in
      let rep := repr_str line in
      let max_width1 := if last then max_width - allowance else max_width in
      (if len rep <=? max_width1 then [rep]
       else wrap_parts max_width allowance last (words_with_space line) EmptyString)
        ++ str_chunks max_width allowance rest
  end.

Definition _pprint_str (object : string) (indent allowance level : Z) : string :=
  if String.eqb object EmptyString then repr_str object
  else
    let lines := splitlines_keepends object in
    let indent := if level =? 1 then indent + 1 else indent in
    let allowance := if level =? 1 then allowance + 1 else allowance in
    let max_width := _width - indent in
    let chunks := str_chunks max_width allowance lines in
    (* [rep] still holds the repr of the last line after the loop *)
    let rep := repr_str (List.last lines EmptyString) in
    match chunks with
    | [_] => rep
    | _ =>
        (if level =? 1 then "(" else EmptyString)
        +:+ join (nl +:+ spaces indent) chunks
        +:+ (if level =? 1 then ")" else EmptyString)
    end.

Fixpoint dict_items_loop (delimnl : string) (indent allowance level : Z)
    (items : list (string * writer)) : string :=
  match items with
  | [] => EmptyString
  | (key, ent) :: rest =>
      let last := match rest with [] => true | _ => false end in
      let rep := repr_str key in
      rep +:+ ": "
      +:+ ent (indent + len rep + 2) (if last then allowance else 1) level
      +:+ (if last then EmptyString else delimnl)
      +:+ dict_items_loop delimnl indent allowance level rest
  end.

Definition _format_dict_items (items : list (string * writer))
    (indent allowance level : Z) : string :=
  let indent := indent + _indent_per_level in
  let delimnl := "," +:+ nl +:+ spaces indent in
  dict_items_loop delimnl indent allowance level items.

Definition _pprint_dict (items : list (string * writer))
    (indent allowance level : Z) : string :=
  "{"
  +:+ (if _indent_per_level >? 1 then spaces (_indent_per_level - 1) else EmptyString)
  +:+ (match items with
       | [] => EmptyString
       | _ => _format_dict_items (sorted_items items) indent (allowance + 1) level
       end)
  +:+ "}".

Fixpoint items_loop (delimnl : string) (indent allowance level : Z)
    (first : bool) (items : list writer) : string :=
  match items with
  | [] => EmptyString
  | ent :: rest =>
      let last := match rest with [] => true | _ => false end in
      (if first then EmptyString else delimnl)
      +:+ ent indent (if last then allowance else 1) level
      +:+ items_loop delimnl indent allowance level false rest
  end.

Definition _format_items (items : list writer) (indent allowance level : Z) : string :=
  let indent := indent + _indent_per_level in
  (if _indent_per_level >? 1 then spaces (_indent_per_level - 1) else EmptyString)
  +:+ items_loop ("," +:+ nl +:+ spaces indent) indent allowance level true items.

Definition _pprint_list (items : list writer) (indent allowance level : Z) : string :=
  "[" +:+ _format_items items indent (allowance + 1) level +:+ "]".

(** [_format]: the one-line form when it fits, else the layout of the
    object's type; the entries of a container are turned into writers
    before the container's own loop runs over them. *)
Fixpoint _format (object : value) (indent allowance level : Z) {struct object} : string :=
  let rep := _safe_repr object in
  let max_width := _width - indent - allowance in
  if len rep >? max_width then
    match object with
    | PDict items =>
        _pprint_dict (map (λ kv, (fst kv, _format (snd kv))) items)
          indent allowance (level + 1)
    | PList l => _pprint_list (map _format l) indent allowance (level + 1)
    | PStr s => _pprint_str s indent allowance (level + 1)
    | _ => rep
    end
  else rep.

Definition pformat (object : value) : string := _format object 0 0 0.

End PrettyPrinter.

End PPrint.

(* ================================================================== *)
(** ** The generator, [json_to_autogen_py.py] *)
(* ================================================================== *)

Module Gen.

(** [mod, cls = provider.rsplit(".", 1)]: the unpacking needs two parts,
    and [rsplit] needs a [str]. *)
Definition split_provider (provider : value) : outcome (string * string) :=
  match provider with
  | PStr s =>
      match rsplit1 "." s with
      | [mod_; cls] => Returns (mod_, cls)
      | _ => Raises (ValueError "not enough values to unpack (expected 2, got 1)")
      end
  | _ =>
      Raises (AttributeError
                ("'" +:+ type_name provider +:+ "' object has no attribute 'rsplit'"))
  end.

(** [pprint.pformat(d, width=88, indent=2, compact=False, sort_dicts=True)] *)
Definition dict_to_python_literal (d : value) : outcome string :=
  Returns (PPrint.pformat 2 88 d).

(** [collect_providers(spec, bag)]: the bag is one set object, updated in
    place by every recursive call; here it is passed along and returned. *)
Fixpoint collect_providers (spec : value) (bag : gset string) : gset string :=
  match spec with
  | PDict items =>
      let bag1 :=
        match dict_get "provider" items with
        | Some (PStr prov) => {[prov]} ∪ bag
        | _ => bag
        end in
      (fix values (l : list (string * value)) (bag : gset string) : gset string :=
         match l with
         | [] => bag
         | kv :: rest => values rest (collect_providers (snd kv) bag)
         end) items bag1
  | PList l =>
      (fix elements (l : list value) (bag : gset string) : gset string :=
         match l with
         | [] => bag
         | v :: rest => elements rest (collect_providers v bag)
         end) l bag
  | _ => bag
  end.

(** The call with [bag=None]: a fresh empty set. *)
Definition collect_providers0 (spec : value) : gset string :=
  collect_providers spec ∅.

(** The table as the repository ships it: no template. *)
Definition EXPLICIT_CTORS_shipped : gmap string string := ∅.

Definition guard_message : string :=
  "Top-level spec must be a dict with a 'provider' key.".

Section generator.
(** [template.format(var=var, cfg=spec)], the format mini-language of
    Python, which may raise. *)
Variable str_format : string → string → value → outcome string.
(** The module-level table of templates, as the user has filled it. *)
Variable EXPLICIT_CTORS : gmap string string.

(** [EXPLICIT_CTORS.get(provider)] followed by [if template:]. *)
Definition template_for (provider : value) : option string :=
  match provider with
  | PStr p =>
      match EXPLICIT_CTORS !! p with
      | Some template => if String.eqb template EmptyString then None else Some template
      | None => None
      end
  | _ => None
  end.

(** [emit_builder(spec, var, imports)] over the set object [imports]. *)
Definition emit_builder (spec : value) (var : string)
  : stateful (gset (string * string)) (string * gset (string * string)) :=
  match spec with
  | PDict items =>
      match dict_get "provider" items with
      | Some provider =>
          mc <~ slift (split_provider provider) ;;
          smodify (λ imports, {[(fst mc, snd mc)]} ∪ imports) ;;;
          match template_for provider with
          | Some template =>
              code <~ slift (str_format template var spec) ;;
              imports <~ sget ;;
              sret (code, imports)
          | None =>
              cfg_literal <~ slift (dict_to_python_literal spec) ;;
              imports <~ sget ;;
              sret (var +:+ " = " +:+ snd mc +:+ ".load_component(" +:+ cfg_literal +:+ ")",
                    imports)
          end
      | None => sraise (ValueError guard_message)
      end
  | _ => sraise (ValueError guard_message)
  end.

(** [by_module.setdefault(mod, set()).add(cls)] for every pair. *)
Definition group_by_module (import_set : gset (string * string)) : gmap string (gset string) :=
  set_fold (λ (mc : string * string) (by_module : gmap string (gset string)),
              <[fst mc := {[snd mc]} ∪ default ∅ (by_module !! fst mc)]> by_module)
           ∅ import_set.

Definition import_line (mod_ : string) (classes : gset string) : string :=
  "from " +:+ mod_ +:+ " import " +:+ join ", " (sorted_strs (elements classes)).

Definition import_lines (import_set : gset (string * string)) : list string :=
  map (λ mc : string * gset string, import_line (fst mc) (snd mc))
      (sorted_items (map_to_list (group_by_module import_set))).

Definition run_block_text : string :=
  nl +:+
  "        import asyncio" +:+ nl +:+
  nl +:+
  "        async def main():" +:+ nl +:+
  "            # 'team' is constructed above. Provide any task you want to run:" +:+ nl +:+
  "            result = await team.run(task=" +:+ dq +:+ "Say hello (generated code)." +:+ dq +:+ ")" +:+ nl +:+
  "            print(result)" +:+ nl +:+
  nl +:+
  "        if __name__ == " +:+ dq +:+ "__main__" +:+ dq +:+ ":" +:+ nl +:+
  "            asyncio.run(main())" +:+ nl +:+
  "        ".

Definition run_block : string := strip (Textwrap.dedent run_block_text).

Definition header_text (json_name : string) : string :=
  "        # This file was generated from: " +:+ json_name +:+ nl +:+
  "        # It reconstructs your AutoGen 0.4.x configuration in pure Python." +:+ nl +:+
  "        # You can now edit it freely (no JSON needed at runtime)." +:+ nl +:+
  "        ".

Definition header (json_name : string) : string :=
  rstrip (Textwrap.dedent (header_text json_name)).

(** [generate_python_from_json(json_path, out_path)], from the document
    already loaded: [json_name] is [json_path.name] and [spec] what
    [json.loads] returned. The value returned is the text handed to
    [out_path.write_text]; nothing is written when an exception is raised. *)
Definition generate_python_from_json (json_name : string) (spec : value) : outcome string :=
  let _unused := sorted_strs (elements (collect_providers0 spec)) in
  match emit_builder spec "team" ∅ with
  | (_, Returns (body_code, import_set)) =>
      let content :=
        join (nl +:+ nl)
             ([header json_name] ++ import_lines import_set
              ++ [EmptyString; body_code; EmptyString; run_block; EmptyString]) in
      Returns content
  | (_, Raises e) => Raises e
  end.

End generator.

Arguments template_for : simpl never.

End Gen.
Import Gen.
Arguments PPrint.pformat : simpl never.


(* ================================================================== *)
(** ** Reading a literal back *)
(* ================================================================== *)

(** The reader of the literals that [pformat] writes for trees of dicts,
    lists, strings, numbers, booleans and [None]: the part of Python's
    expression syntax made of dict and list displays, string literals (one
    or several side by side, which Python concatenates), decimal numbers
    with an optional sign, and the names [None], [True] and [False]. A
    float is kept as the text of its literal, which for the [repr] of a
    float is the [repr] of the float read back; [inf] and [nan] are names
    that no literal denotes, and are not read. *)
Module Literal.

(** White space between tokens inside brackets: blank, tab, newline,
    carriage return, form feed. *)
Definition is_ws (c : ascii) : bool :=
  Ascii.eqb c " "%char || Ascii.eqb c TAB || Ascii.eqb c NL || Ascii.eqb c CR
  || Ascii.eqb c "012"%char.

Fixpoint skip_ws (s : string) : string :=
  match s with
  | EmptyString => EmptyString
  | String c rest => if is_ws c then skip_ws rest else s
  end.

Definition is_quote (c : ascii) : bool := Ascii.eqb c SQUOTE || Ascii.eqb c DQUOTE.

Definition is_digit (c : ascii) : bool := ((48 <=? code c) && (code c <=? 57))%N.

Definition hexval (c : ascii) : option N :=
  let n := code c in
  if ((48 <=? n) && (n <=? 57))%N then Some (n - 48)%N
  else if ((97 <=? n) && (n <=? 102))%N then Some (n - 87)%N
  else if ((65 <=? n) && (n <=? 70))%N then Some (n - 55)%N
  else None.

(** The text of a string literal, from after its opening quote [q] to its
    closing quote, and what follows the literal. *)
Fixpoint lit_body (q : ascii) (s : string) : option (string * string) :=
  match s with
  | EmptyString => None
  | String c rest =>
      if Ascii.eqb c q then Some (EmptyString, rest)
      else if Ascii.eqb c BACKSLASH then
        match rest with
        | EmptyString => None
        | String e rest1 =>
            let plain (d : ascii) :=
              match lit_body q rest1 with
              | Some (text, after) => Some (String d text, after)
              | None => None
              end in
            if Ascii.eqb e BACKSLASH || Ascii.eqb e SQUOTE || Ascii.eqb e DQUOTE then plain e
            else if Ascii.eqb e "n"%char then plain NL
            else if Ascii.eqb e "r"%char then plain CR
            else if Ascii.eqb e "t"%char then plain TAB
            else if Ascii.eqb e "x"%char then
              match rest1 with
              | String h1 (String h2 rest2) =>
                  match hexval h1, hexval h2, lit_body q rest2 with
                  | Some a, Some b, Some (text, after) =>
                      Some (String (ascii_of_N (16 * a + b)) text, after)
                  | _, _, _ => None
                  end
              | _ => None
              end
            else None
        end
      else if Ascii.eqb c NL || Ascii.eqb c CR then None
      else
        match lit_body q rest with
        | Some (text, after) => Some (String c text, after)
        | None => None
        end
  end.

(** One string literal or several side by side, concatenated. *)
Fixpoint strings (fuel : nat) (s : string) : option (string * string) :=
  match fuel with
  | O => None
  | S fuel =>
      match s with
      | EmptyString => None
      | String q rest =>
          if is_quote q then
            match lit_body q rest with
            | Some (text, after) =>
                match skip_ws after with
                | String q' _ =>
                    if is_quote q' then
                      match strings fuel (skip_ws after) with
                      | Some (more, after') => Some (text +:+ more, after')
                      | None => None
                      end
                    else Some (text, after)
                | EmptyString => Some (text, after)
                end
            | None => None
            end
          else None
      end
  end.

(** The longest run of digits at the front, and the rest. *)
Fixpoint digits (s : string) : string * string :=
  match s with
  | EmptyString => (EmptyString, EmptyString)
  | String c rest =>
      if is_digit c then
        let ds := digits rest in (String c (fst ds), snd ds)
      else (EmptyString, s)
  end.

Definition sign_of (s : string) : string * string :=
  match s with
  | String c rest => if Ascii.eqb c "-"%char then ("-", rest) else (EmptyString, s)
  | EmptyString => (EmptyString, s)
  end.

Definition fraction_of (s : string) : string * string :=
  match s with
  | String c rest =>
      if Ascii.eqb c "."%char
      then let ds := digits rest in ("." +:+ fst ds, snd ds)
      else (EmptyString, s)
  | EmptyString => (EmptyString, s)
  end.

Definition exponent_of (s : string) : string * string :=
  match s with
  | String e rest =>
      if Ascii.eqb e "e"%char || Ascii.eqb e "E"%char then
        let sg :=
          match rest with
          | String c rest' =>
              if Ascii.eqb c "+"%char || Ascii.eqb c "-"%char
              then (chr c, rest') else (EmptyString, rest)
          | EmptyString => (EmptyString, rest)
          end in
        let ds := digits (snd sg) in
        if String.eqb (fst ds) EmptyString then (EmptyString, s)
        else (chr e +:+ fst sg +:+ fst ds, snd ds)
      else (EmptyString, s)
  | EmptyString => (EmptyString, s)
  end.

(** A decimal number: an [int] when it has neither fraction nor exponent,
    else a [float], kept as the text read. *)
Definition number (s : string) : option (value * string) :=
  let sg := sign_of s in
  let ip := digits (snd sg) in
  if String.eqb (fst ip) EmptyString then None
  else
    let fr := fraction_of (snd ip) in
    let ex := exponent_of (snd fr) in
    if String.eqb (fst fr) EmptyString && String.eqb (fst ex) EmptyString then
      match NilZero.int_of_string (fst sg +:+ fst ip) with
      | Some d => Some (PInt (Z.of_int d), snd ip)
      | None => None
      end
    else Some (PFloat (fst sg +:+ fst ip +:+ fst fr +:+ fst ex), snd ex).

(** The text is the literal of a float: it reads back as itself. *)
Definition float_literal (r : string) : bool :=
  match number r with
  | Some (PFloat r', EmptyString) => String.eqb r' r
  | _ => false
  end.

Definition keyword (s : string) : option (value * string) :=
  match s with
  | String "N" (String "o" (String "n" (String "e" rest))) => Some (PNone, rest)
  | String "T" (String "r" (String "u" (String "e" rest))) => Some (PBool true, rest)
  | String "F" (String "a" (String "l" (String "s" (String "e" rest)))) =>
      Some (PBool false, rest)
  | _ => None
  end.

(** Items separated by commas, up to the closing bracket [close]. *)
Fixpoint items_until {X} (close : ascii) (item : string → option (X * string))
    (n : nat) (s : string) : option (list X * string) :=
  match n with
  | O => None
  | S n =>
      match item s with
      | Some (x, after) =>
          match skip_ws after with
          | String c after' =>
              if Ascii.eqb c ","%char then
                match items_until close item n after' with
                | Some (xs, after'') => Some (x :: xs, after'')
                | None => None
                end
              else if Ascii.eqb c close then Some ([x], after')
              else None
          | EmptyString => None
          end
      | None => None
      end
  end.

(** An entry of a dict display: a key, a colon, a value. *)
Definition entry (value_of : string → option (value * string)) (s : string)
  : option ((string * value) * string) :=
  match strings (String.length s) (skip_ws s) with
  | Some (key, after) =>
      match skip_ws after with
      | String c after' =>
          if Ascii.eqb c ":"%char then
            match value_of after' with
            | Some (v, after'') => Some ((key, v), after'')
            | None => None
            end
          else None
      | EmptyString => None
      end
  | None => None
  end.

(** [d[key] = v] on the items of a dict. *)
Fixpoint dict_set (key : string) (v : value) (items : list (string * value))
  : list (string * value) :=
  match items with
  | [] => [(key, v)]
  | (k, w) :: rest =>
      if String.eqb k key then (k, v) :: rest else (k, w) :: dict_set key v rest
  end.

(** The dict that a display builds, entry after entry. *)
Definition dict_of_pairs (pairs : list (string * value)) : list (string * value) :=
  fold_left (λ items kv, dict_set (fst kv) (snd kv) items) pairs [].

Fixpoint value_of (fuel : nat) (s : string) : option (value * string) :=
  match fuel with
  | O => None
  | S fuel =>
      match skip_ws s with
      | EmptyString => None
      | String c rest =>
          if Ascii.eqb c "["%char then
            match skip_ws rest with
            | EmptyString => None
            | String c' after =>
                if Ascii.eqb c' "]"%char then Some (PList [], after)
                else
                  match items_until "]" (value_of fuel) fuel rest with
                  | Some (l, after') => Some (PList l, after')
                  | None => None
                  end
            end
          else if Ascii.eqb c "{"%char then
            match skip_ws rest with
            | EmptyString => None
            | String c' after =>
                if Ascii.eqb c' "}"%char then Some (PDict [], after)
                else
                  match items_until "}" (entry (value_of fuel)) fuel rest with
                  | Some (pairs, after') => Some (PDict (dict_of_pairs pairs), after')
                  | None => None
                  end
            end
          else if is_quote c then
            match strings (String.length s) (String c rest) with
            | Some (text, after) => Some (PStr text, after)
            | None => None
            end
          else if is_digit c || Ascii.eqb c "-"%char then number (String c rest)
          else keyword (String c rest)
      end
  end.

(** The value of a literal: the whole text is read, up to white space. *)
Definition literal_eval (s : string) : option value :=
  match value_of (String.length s) s with
  | Some (v, after) =>
      match skip_ws after with
      | EmptyString => Some v
      | String _ _ => None
      end
  | None => None
  end.

End Literal.

(* ================================================================== *)
(** ** Notions the properties are stated with *)
(* ================================================================== *)

(** A string [p] stands under a key ["provider"] of some dict of the tree. *)
Inductive provider_in (p : string) : value → Prop :=
| provider_here items :
    In ("provider", PStr p) items → provider_in p (PDict items)
| provider_in_value items k v :
    In (k, v) items → provider_in p v → provider_in p (PDict items)
| provider_in_element l v :
    In v l → provider_in p v → provider_in p (PList l).

(** A dict that has a key ["provider"]. *)
Definition has_provider_key (spec : value) : bool :=
  match spec with
  | PDict items => dict_contains "provider" items
  | _ => false
  end.

(** The provider string of the root, when the root is a dict that has one. *)
Definition root_provider (spec : value) : option string :=
  match spec with
  | PDict items =>
      match dict_get "provider" items with
      | Some (PStr p) => Some p
      | _ => None
      end
  | _ => None
  end.

(** A [str.format] that is never reached when no template is registered. *)
Definition format_verbatim (template var : string) (cfg : value) : outcome string :=
  Returns template.


(** The message of the [ValueError] that the unpacking in [split_provider]
    raises. *)
Definition unpack_message : string :=
  "not enough values to unpack (expected 2, got 1)".


(** Two trees are the same up to the order in which the keys of their
    dicts were inserted: scalars are equal, lists agree element by element,
    and two dicts have as many keys and, under each key of the first, values
    that are the same in this sense. *)
Fixpoint deep_eq (a b : value) : bool :=
  match a, b with
  | PNone, PNone => true
  | PBool x, PBool y => Bool.eqb x y
  | PInt x, PInt y => Z.eqb x y
  | PFloat x, PFloat y => String.eqb x y
  | PStr x, PStr y => String.eqb x y
  | POther c x, POther d y => String.eqb c d && String.eqb x y
  | PList l1, PList l2 =>
      (fix elements (l1 l2 : list value) : bool :=
         match l1, l2 with
         | [], [] => true
         | x :: r1, y :: r2 => deep_eq x y && elements r1 r2
         | _, _ => false
         end) l1 l2
  | PDict items1, PDict items2 =>
      Nat.eqb (length items1) (length items2)
      && (fix entries (l : list (string * value)) : bool :=
            match l with
            | [] => true
            | kv :: rest =>
                match dict_get (fst kv) items2 with
                | Some v' => deep_eq (snd kv) v'
                | None => false
                end && entries rest
            end) items1
  | _, _ => false
  end.

(** The tree with the items of every dict in ascending order of keys. *)
Fixpoint canon (v : value) : value :=
  match v with
  | PList l => PList (map canon l)
  | PDict items => PDict (sorted_items (map (λ kv, (fst kv, canon (snd kv))) items))
  | _ => v
  end.


(** The number of nodes of a tree. *)
Fixpoint size (v : value) : nat :=
  match v with
  | PList l => S (list_sum (map size l))
  | PDict items => S (list_sum (map (λ kv, size (snd kv)) items))
  | _ => 1
  end.











(** Example A of the specification. *)
Definition example_A : value :=
  PDict [("provider", PStr "ns.TeamX");
         ("config", PDict [("name", PStr "t1");
                           ("members", PList [PDict [("provider", PStr "ns.AgentY");
                                                     ("config", PDict [("name", PStr "a1")])]])])].

(** Example A with the keys of every dict inserted in another order. *)
Definition example_A_reordered : value :=
  PDict [("config", PDict [("members", PList [PDict [("config", PDict [("name", PStr "a1")]);
                                                     ("provider", PStr "ns.AgentY")]]);
                           ("name", PStr "t1")]);
         ("provider", PStr "ns.TeamX")].



(** Example C of the specification. *)
Definition example_C : value :=
  PDict [("provider", PStr EmptyString); ("config", PDict [])].

(** A root that resolves, with a nested component whose provider is empty. *)
Definition example_nested_empty : value :=
  PDict [("provider", PStr "ns.TeamX");
         ("config", PDict [("provider", PStr EmptyString)])].



(** Strictly ascending strings: the order [sorted] leaves distinct strings
    in. *)
Definition str_lt (a b : string) : Prop := String.ltb a b = true.

(** A table that holds one template, for the class of Example A. *)
Definition example_registry : gmap string string :=
  {["ns.TeamX" := "{var} = TeamX()"]}.

(** A [str.format] that raises on every template, as Python's does on a
    field that the arguments do not have. *)
Definition format_failing (template var : string) (cfg : value) : outcome string :=
  Raises (Exc "KeyError" "'missing'").

(** A root whose provider is a number. *)
Definition example_numeric_provider : value :=
  PDict [("provider", PInt 5); ("config", PDict [])].

(* ------------------------------------------------------------------ *)
(** *** Notions of the proofs *)

(** Ascending order of keys, as [sorted] leaves them. *)
Definition key_le {A} (x y : string * A) : Prop := String.ltb (fst y) (fst x) = false.

(** Two entries with the same key and related values. *)
Definition entry_related {A B} (R : A → B → Prop) (x : string * A) (y : string * B) : Prop :=
  fst x = fst y ∧ R (snd x) (snd y).

(** Two values that every layout renders alike. *)
Definition same_render (_indent_per_level _width : Z) (v v' : value) : Prop :=
  PPrint._safe_repr v = PPrint._safe_repr v'
  ∧ ∀ indent allowance level,
      PPrint._format _indent_per_level _width v indent allowance level
      = PPrint._format _indent_per_level _width v' indent allowance level.





(* ================================================================== *)
(** ** The embedding at work *)
(* ================================================================== *)

Example split_provider_dotted_path :
  split_provider (PStr "autogen_agentchat.teams.RoundRobinGroupChat")
  = Returns ("autogen_agentchat.teams", "RoundRobinGroupChat").
Proof. reflexivity. Qed.

Example split_provider_empty :
  split_provider (PStr EmptyString) = Raises (ValueError unpack_message).
Proof. reflexivity. Qed.

Example split_provider_number :
  split_provider (PInt 3)
  = Raises (AttributeError "'int' object has no attribute 'rsplit'").
Proof. reflexivity. Qed.

Example repr_str_single_quote : repr_str "it's" = dq +:+ "it's" +:+ dq.
Proof. reflexivity. Qed.

Example repr_str_escapes :
  repr_str (chr TAB +:+ "a'" +:+ dq +:+ chr BACKSLASH +:+ chr "255"%char +:+ chr "160"%char)
  = "'\ta\'" +:+ dq +:+ "\\" +:+ chr "255"%char +:+ "\xa0'".
Proof. reflexivity. Qed.

Example dedent_common_margin :
  dedent ("  a" +:+ nl +:+ "    b" +:+ nl +:+ "  ") = "a" +:+ nl +:+ "  b" +:+ nl.
Proof. reflexivity. Qed.

Example pformat_example_A :
  PPrint.pformat 2 88 example_A
  = "{ 'config': { 'members': [{'config': {'name': 'a1'}, 'provider': 'ns.AgentY'}],"
    +:+ nl +:+ "              'name': 't1'},"
    +:+ nl +:+ "  'provider': 'ns.TeamX'}".
Proof. vm_compute. reflexivity. Qed.

Example pformat_wraps_strings :
  PPrint.pformat 2 12 (PList [PStr "aaa bbb ccc"; PInt (-5); PNone])
  = "[ 'aaa bbb '" +:+ nl +:+ "  'ccc'," +:+ nl +:+ "  -5," +:+ nl +:+ "  None]".
Proof. vm_compute. reflexivity. Qed.

Example literal_eval_example_A :
  Literal.literal_eval (PPrint.pformat 2 88 example_A) = Some (canon example_A).
Proof. vm_compute. reflexivity. Qed.

Example float_literal_finite :
  map Literal.float_literal ["1.5"; "-0.0"; "1e+100"; "2.5e-07"] = [true; true; true; true].
Proof. reflexivity. Qed.

Example float_literal_not_finite :
  map Literal.float_literal ["nan"; "inf"; "-inf"] = [false; false; false].
Proof. reflexivity. Qed.

Example import_lines_grouped :
  import_lines {[("b", "Y"); ("a", "X"); ("a", "W")]}
  = ["from a import W, X"; "from b import Y"].
Proof. vm_compute. reflexivity. Qed.

Example generate_example_C :
  generate_python_from_json format_verbatim EXPLICIT_CTORS_shipped "spec.json" example_C
  = Raises (ValueError unpack_message).
Proof. vm_compute. reflexivity. Qed.

(* ================================================================== *)
(** ** Facts about the builtins *)
(* ================================================================== *)




Lemma existsb_eqb_In k ks : existsb (String.eqb k) ks = true ↔ In k ks.
Proof.
  rewrite existsb_exists. split.
  - intros (x & Hx & He). apply String.eqb_eq in He. now subst.
  - intros H. exists k. split; [done | apply String.eqb_refl].
Qed.

Lemma distinct_cons k ks :
  distinct (k :: ks) = true ↔ ¬ In k ks ∧ distinct ks = true.
Proof.
  simpl. rewrite andb_true_iff, negb_true_iff. split.
  - intros [H1 H2]. split; [|done]. intros Hin.
    apply existsb_eqb_In in Hin. congruence.
  - intros [H1 H2]. split; [|done].
    destruct (existsb (String.eqb k) ks) eqn:E; [|done].
    apply existsb_eqb_In in E. done.
Qed.

Lemma dict_get_In key items v :
  dict_get key items = Some v → In (key, v) items.
Proof.
  induction items as [|[k w] rest IH]; simpl; [done|].
  destruct (String.eqb k key) eqn:E.
  - apply String.eqb_eq in E. intros [= <-]. left. now subst.
  - intros H. right. auto.
Qed.

Lemma In_dict_get key items v :
  distinct (map fst items) = true → In (key, v) items → dict_get key items = Some v.
Proof.
  induction items as [|[k w] rest IH]; simpl; [done|].
  intros Hd. change (distinct (k :: map fst rest) = true) in Hd.
  apply distinct_cons in Hd as [Hk Hd].
  intros [[= -> ->]|Hin].
  - now rewrite String.eqb_refl.
  - destruct (String.eqb k key) eqn:E; [|auto].
    apply String.eqb_eq in E. subst k. exfalso. apply Hk.
    change key with (fst (key, v)). now apply in_map.
Qed.


(* ================================================================== *)
(** ** Provider collection (C4) *)
(* ================================================================== *)

Section collection.
Variable p : string.

Lemma collect_values_spec (items : list (string * value)) :
  Forall (λ kv, ∀ bag, p ∈ collect_providers (snd kv) bag ↔
                       p ∈ bag ∨ provider_in p (snd kv)) items →
  ∀ bag,
    p ∈ (fix values (l : list (string * value)) (bag : gset string) : gset string :=
           match l with
           | [] => bag
           | kv :: rest => values rest (collect_providers (snd kv) bag)
           end) items bag
    ↔ p ∈ bag ∨ ∃ kv, In kv items ∧ provider_in p (snd kv).
Proof.
  induction 1 as [|kv rest Hkv _ IH]; intros bag.
  - split; [auto | intros [H|(kv & [] & _)]; done].
  - rewrite IH, Hkv. split.
    + intros [[H|H]|(kv' & Hin & H)]; [by left | right; exists kv | right; exists kv'];
        simpl; auto.
    + intros [H|(kv' & [->|Hin] & H)]; [by left; left | by left; right |].
      right. by exists kv'.
Qed.

Lemma collect_elements_spec (l : list value) :
  Forall (λ v, ∀ bag, p ∈ collect_providers v bag ↔ p ∈ bag ∨ provider_in p v) l →
  ∀ bag,
    p ∈ (fix elements (l : list value) (bag : gset string) : gset string :=
           match l with
           | [] => bag
           | v :: rest => elements rest (collect_providers v bag)
           end) l bag
    ↔ p ∈ bag ∨ ∃ v, In v l ∧ provider_in p v.
Proof.
  induction 1 as [|v rest Hv _ IH]; intros bag.
  - split; [auto | intros [H|(v & [] & _)]; done].
  - rewrite IH, Hv. split.
    + intros [[H|H]|(v' & Hin & H)]; [by left | right; exists v | right; exists v'];
        simpl; auto.
    + intros [H|(v' & [->|Hin] & H)]; [by left; left | by left; right |].
      right. by exists v'.
Qed.

Lemma collect_providers_spec (t : value) :
  wf_value t = true →
  ∀ bag, p ∈ collect_providers t bag ↔ p ∈ bag ∨ provider_in p t.
Proof.
  induction t as [| | | | |l IH|items IH|] using value_nested_ind; intros Hwf bag;
    try (simpl; split; [auto | intros [H|H]; [done | inversion H]]).
  - (* list *)
    simpl in Hwf. rewrite forallb_forall in Hwf.
    assert (Hall : Forall (λ v, ∀ bag, p ∈ collect_providers v bag ↔
                                       p ∈ bag ∨ provider_in p v) l).
    { rewrite List.Forall_forall in IH |- *. intros v Hv. apply IH; auto. }
    simpl. rewrite (collect_elements_spec l Hall). split.
    + intros [H|(v & Hin & H)]; [by left | right; by eapply provider_in_element].
    + intros [H|H]; [by left | right]. inversion H; subst. eauto.
  - (* dict *)
    simpl in Hwf. apply andb_true_iff in Hwf as [Hd Hwf].
    rewrite forallb_forall in Hwf.
    assert (Hall : Forall (λ kv, ∀ bag, p ∈ collect_providers (snd kv) bag ↔
                                        p ∈ bag ∨ provider_in p (snd kv)) items).
    { rewrite List.Forall_forall in IH |- *. intros kv Hkv. apply IH; auto. }
    simpl. rewrite (collect_values_spec items Hall). split.
    + intros [H|(kv & Hin & H)].
      * destruct (dict_get "provider" items) as [[]|] eqn:E; try by left.
        apply elem_of_union in H as [H|H]; [|by left].
        apply elem_of_singleton in H. subst. right.
        apply provider_here. by apply dict_get_In.
      * right. destruct kv as [k v]. by eapply provider_in_value.
    + intros [H|H].
      * left. destruct (dict_get "provider" items) as [[]|]; try done.
        apply elem_of_union. by right.
      * inversion H as [? Hin|? k v Hin Hv|]; subst.
        -- left. rewrite (In_dict_get _ _ _ Hd Hin).
           apply elem_of_union. left. by apply elem_of_singleton.
        -- right. by exists (k, v).
Qed.

End collection.

(** C4. On a tree of dicts, lists and scalars, [collect_providers] called
    without a bag returns exactly the set of strings that stand under a key
    ["provider"] of some dict anywhere in the tree: every dict's values and
    every list's elements are visited, and a value under ["provider"] that
    is not a string adds nothing. *)
Theorem collect_providers_exact (t : value) (p : string) :
  wf_value t = true →
  p ∈ collect_providers0 t ↔ provider_in p t.
Proof.
  intros Hwf. unfold collect_providers0.
  rewrite (collect_providers_spec p t Hwf ∅). split; [|auto].
  intros [H|H]; [|done]. by apply not_elem_of_empty in H.
Qed.

Lemma collect_providers_exact_witness :
  "ns.AgentY" ∈ collect_providers0 example_A ↔ provider_in "ns.AgentY" example_A.
Proof. apply collect_providers_exact. reflexivity. Defined.

(* ================================================================== *)
(** ** The builder (C2, C3, C6, C10) *)
(* ================================================================== *)

Lemma rcut_None sep s : rcut sep s = None ↔ contains_char sep s = false.
Proof.
  induction s as [|c s IH]; simpl; [done|].
  rewrite (Ascii.eqb_sym sep c).
  destruct (rcut sep s) as [[a b]|].
  - split; [done|]. intros H. apply orb_false_iff in H as [_ H].
    apply IH in H. done.
  - destruct (Ascii.eqb c sep); simpl; [done|]. tauto.
Qed.

Lemma rcut_app sep m c :
  contains_char sep c = false →
  rcut sep (m +:+ String sep c) = Some (m, c).
Proof.
  intros Hc. apply rcut_None in Hc.
  induction m as [|x m IH]; simpl.
  - by rewrite Hc, Ascii.eqb_refl.
  - by rewrite IH.
Qed.

Lemma rcut_Some sep s a b :
  rcut sep s = Some (a, b) → s = a +:+ String sep b ∧ contains_char sep b = false.
Proof.
  revert a. induction s as [|c s IH]; intros a; simpl; [done|].
  destruct (rcut sep s) as [[a' b']|] eqn:E.
  - intros [= <- <-]. destruct (IH a' eq_refl) as [-> H]. done.
  - destruct (Ascii.eqb c sep) eqn:Ec; [|done].
    intros [= <- <-]. apply Ascii.eqb_eq in Ec. subst c.
    split; [done | by apply rcut_None].
Qed.

Lemma split_provider_dotted m c :
  contains_char "." c = false →
  split_provider (PStr (m +:+ "." +:+ c)) = Returns (m, c).
Proof.
  intros Hc. unfold split_provider, rsplit1.
  change ("." +:+ c) with (String "."%char c). by rewrite rcut_app.
Qed.

Lemma split_provider_undotted p :
  contains_char "." p = false →
  split_provider (PStr p) =
    Raises (ValueError unpack_message).
Proof.
  intros Hp. apply rcut_None in Hp. unfold split_provider, rsplit1. by rewrite Hp.
Qed.

Lemma split_provider_Returns provider m c :
  split_provider provider = Returns (m, c) →
  provider = PStr (m +:+ "." +:+ c) ∧ contains_char "." c = false.
Proof.
  destruct provider; try done. simpl. unfold rsplit1.
  destruct (rcut "." s) as [[a b]|] eqn:E; [|done].
  intros [= <- <-]. apply rcut_Some in E as [-> H]. done.
Qed.


Section builder.
Variable str_format : string → string → value → outcome string.
Variable EXPLICIT_CTORS : gmap string string.

Local Abbreviation emit := (emit_builder str_format EXPLICIT_CTORS).
Local Abbreviation generate := (generate_python_from_json str_format EXPLICIT_CTORS).

(** The steps of [emit_builder] on a dict that has a ["provider"] key. *)
Lemma emit_builder_steps items provider var imports :
  dict_get "provider" items = Some provider →
  emit (PDict items) var imports =
    match split_provider provider with
    | Raises e => (imports, Raises e)
    | Returns (m, c) =>
        let imports' := {[(m, c)]} ∪ imports in
        match template_for EXPLICIT_CTORS provider with
        | Some template =>
            match str_format template var (PDict items) with
            | Returns code => (imports', Returns (code, imports'))
            | Raises e => (imports', Raises e)
            end
        | None =>
            (imports',
             Returns (var +:+ " = " +:+ c +:+ ".load_component("
                      +:+ PPrint.pformat 2 88 (PDict items) +:+ ")", imports'))
        end
    end.
Proof.
  intros Hp. unfold emit_builder. rewrite Hp.
  unfold sbind, slift, smodify, sget, sret.
  destruct (split_provider provider) as [[m c]|e]; [|done]. simpl.
  destruct (template_for EXPLICIT_CTORS provider) as [template|]; [|done].
  by destruct (str_format template var (PDict items)).
Qed.

Lemma emit_builder_guard_fires spec var imports :
  has_provider_key spec = false →
  emit spec var imports = (imports, Raises (ValueError guard_message)).
Proof.
  destruct spec; try done. simpl. unfold dict_contains, emit_builder.
  by destruct (dict_get "provider" items).
Qed.

Lemma emit_builder_undotted items p var imports :
  dict_get "provider" items = Some (PStr p) →
  contains_char "." p = false →
  emit (PDict items) var imports = (imports, Raises (ValueError unpack_message)).
Proof.
  intros Hp Hdot. rewrite (emit_builder_steps _ _ _ _ Hp).
  by rewrite split_provider_undotted.
Qed.

Lemma emit_builder_fallback_steps items m c var imports :
  dict_get "provider" items = Some (PStr (m +:+ "." +:+ c)) →
  contains_char "." c = false →
  template_for EXPLICIT_CTORS (PStr (m +:+ "." +:+ c)) = None →
  emit (PDict items) var imports =
    ({[(m, c)]} ∪ imports,
     Returns (var +:+ " = " +:+ c +:+ ".load_component("
              +:+ PPrint.pformat 2 88 (PDict items) +:+ ")", {[(m, c)]} ∪ imports)).
Proof.
  intros Hp Hdot Ht. rewrite (emit_builder_steps _ _ _ _ Hp).
  rewrite split_provider_dotted by done. cbv beta iota zeta. by rewrite Ht.
Qed.


End builder.





(** C6. The table of templates is consulted for the root's provider only:
    two runs whose tables agree at the provider string of the root (and may
    differ anywhere else, for instance at the provider of a nested
    component) produce the same result, hence the same output text. *)
Theorem template_lookup_root_only
    (str_format : string → string → value → outcome string)
    (registry1 registry2 : gmap string string)
    (json_name : string) (spec : value) :
  (∀ p, root_provider spec = Some p → registry1 !! p = registry2 !! p) →
  generate_python_from_json str_format registry1 json_name spec
  = generate_python_from_json str_format registry2 json_name spec.
Proof.
  intros Hagree. unfold generate_python_from_json.
  assert (emit_builder str_format registry1 spec "team" ∅
          = emit_builder str_format registry2 spec "team" ∅) as ->; [|done].
  destruct (has_provider_key spec) eqn:Hk.
  2:{ by rewrite !emit_builder_guard_fires. }
  destruct spec; try done. simpl in Hk. unfold dict_contains in Hk.
  destruct (dict_get "provider" items) as [provider|] eqn:Hp; [|done].
  rewrite !(emit_builder_steps _ _ _ _ _ _ Hp).
  assert (template_for registry1 provider = template_for registry2 provider) as ->; [|done].
  destruct provider; try done. unfold template_for.
  rewrite (Hagree s); [done|]. simpl. by rewrite Hp.
Qed.

Lemma template_lookup_root_only_witness :
  generate_python_from_json format_verbatim ∅ "team-config.json" example_A
  = generate_python_from_json format_verbatim {["ns.AgentY" := "{var} = AgentY()"]}
      "team-config.json" example_A.
Proof.
  apply template_lookup_root_only. intros p [= <-]. reflexivity.
Defined.

(* ================================================================== *)
(** ** Imports and the assembled text (C1, C2, C9) *)
(* ================================================================== *)








Section assembly.
Variable str_format : string → string → value → outcome string.
Variable EXPLICIT_CTORS : gmap string string.


End assembly.




(** C2 (as stated, refuted). On Example C the run raises [ValueError], not
    [ReferenceError]; and an empty provider below the root raises nothing:
    the run returns. *)
Lemma malformed_provider_no_ReferenceError :
  generate_python_from_json format_verbatim EXPLICIT_CTORS_shipped "spec.json" example_C
    = Raises (ValueError unpack_message)
  ∧ ¬ raised (generate_python_from_json format_verbatim EXPLICIT_CTORS_shipped
                "spec.json" example_C) "ReferenceError"
  ∧ EmptyString ∈ collect_providers0 example_nested_empty
  ∧ ∃ content,
      generate_python_from_json format_verbatim EXPLICIT_CTORS_shipped
        "spec.json" example_nested_empty = Returns content.
Proof.
  assert (H : generate_python_from_json format_verbatim EXPLICIT_CTORS_shipped
                "spec.json" example_C = Raises (ValueError unpack_message)).
  { unfold generate_python_from_json, example_C.
    by rewrite (emit_builder_undotted _ _ _ EmptyString). }
  split; [exact H|]. split; [|split].
  - rewrite H. intros [msg Hmsg]. discriminate.
  - apply collect_providers_spec; [reflexivity|]. right.
    eapply provider_in_value; [right; left; reflexivity|].
    apply provider_here. left. reflexivity.
  - unfold generate_python_from_json, example_nested_empty.
    rewrite (emit_builder_fallback_steps _ _ _ "ns" "TeamX") by reflexivity.
    eexists. reflexivity.
Qed.

(** C2 (amended). A run fails whenever the provider of the root is a string
    without a dot, the empty string included: the unpacking in
    [split_provider] raises [ValueError] before [emit_builder] records an
    import or builds any code, so the run ends with that error and no text.
    Providers below the root are collected but not resolved. *)
Theorem undotted_root_provider_fails
    (str_format : string → string → value → outcome string)
    (EXPLICIT_CTORS : gmap string string)
    (json_name : string) (items : list (string * value)) (p : string) :
  dict_get "provider" items = Some (PStr p) →
  contains_char "." p = false →
  generate_python_from_json str_format EXPLICIT_CTORS json_name (PDict items)
    = Raises (ValueError unpack_message)
  ∧ ∀ var imports,
      emit_builder str_format EXPLICIT_CTORS (PDict items) var imports
        = (imports, Raises (ValueError unpack_message)).
Proof.
  intros Hp Hdot. split.
  - unfold generate_python_from_json. by rewrite (emit_builder_undotted _ _ _ p).
  - intros var imports. by apply (emit_builder_undotted _ _ _ p).
Qed.

Lemma undotted_root_provider_fails_witness :
  generate_python_from_json format_verbatim EXPLICIT_CTORS_shipped "spec.json" example_C
    = Raises (ValueError unpack_message)
  ∧ ∀ var imports,
      emit_builder format_verbatim EXPLICIT_CTORS_shipped example_C var imports
        = (imports, Raises (ValueError unpack_message)).
Proof.
  apply (undotted_root_provider_fails format_verbatim EXPLICIT_CTORS_shipped
           "spec.json" _ EmptyString); reflexivity.
Defined.






(* ================================================================== *)
(** ** Sorted emission and the order of insertion (C5) *)
(* ================================================================== *)

Lemma compare_refl s : String.compare s s = Eq.
Proof.
  induction s as [|c s IH]; simpl; [done|].
  unfold Ascii.compare. by rewrite N.compare_refl.
Qed.

Lemma ltb_leb a b : String.ltb a b = true ↔ String.leb a b = true ∧ a ≠ b.
Proof.
  unfold String.ltb, String.leb. destruct (String.compare a b) eqn:E.
  - apply String.compare_eq_iff in E. split; [done | intros [_ H]; done].
  - split; [|done]. intros _. split; [done|]. intros ->.
    by rewrite compare_refl in E.
  - split; [done | intros [H _]; done].
Qed.

Lemma ltb_irrefl a : String.ltb a a = false.
Proof. unfold String.ltb. by rewrite compare_refl. Qed.

Lemma ltb_trans a b c :
  String.ltb a b = true → String.ltb b c = true → String.ltb a c = true.
Proof.
  rewrite !ltb_leb. intros [H1 N1] [H2 N2].
  assert (H3 : String.leb a c = true).
  { apply Is_true_true. apply Is_true_true in H1, H2.
    exact (@transitivity _ String.le _ a b c H1 H2). }
  split; [done|]. intros ->. apply N1. by apply String.leb_antisym.
Qed.

Lemma ltb_total a b : a ≠ b → String.ltb a b = true ∨ String.ltb b a = true.
Proof.
  intros Hne. rewrite !ltb_leb.
  destruct (String.leb_total a b); [left | right]; split; congruence.
Qed.

Lemma ltb_asym a b : String.ltb a b = true → String.ltb b a = false.
Proof.
  intros H. destruct (String.ltb b a) eqn:E; [|done].
  pose proof (ltb_trans _ _ _ H E) as H'. by rewrite ltb_irrefl in H'.
Qed.

Lemma distinct_NoDup ks : distinct ks = true ↔ List.NoDup ks.
Proof.
  induction ks as [|k ks IH].
  - split; [constructor | done].
  - rewrite distinct_cons, List.NoDup_cons_iff, IH. done.
Qed.

Section sorting.
Context {A : Type}.
Implicit Types (x y : string * A) (l : list (string * A)).

Lemma insert_by_key_comm x y l :
  fst x ≠ fst y →
  insert_by_key x (insert_by_key y l) = insert_by_key y (insert_by_key x l).
Proof.
  intros Hne. induction l as [|z l IH]; simpl.
  - destruct (ltb_total _ _ Hne) as [H|H]; rewrite H, (ltb_asym _ _ H); done.
  - destruct (String.ltb (fst z) (fst y)) eqn:Hzy,
             (String.ltb (fst z) (fst x)) eqn:Hzx; simpl;
      rewrite ?Hzy, ?Hzx.
    + by rewrite IH.
    + assert (Hxy : String.ltb (fst x) (fst y) = true).
      { destruct (ltb_total _ _ Hne) as [H|H]; [done|].
        by rewrite (ltb_trans _ _ _ Hzy H) in Hzx. }
      by rewrite Hxy.
    + assert (Hyx : String.ltb (fst y) (fst x) = true).
      { destruct (ltb_total _ _ Hne) as [H|H]; [|done].
        by rewrite (ltb_trans _ _ _ Hzx H) in Hzy. }
      by rewrite Hyx.
    + destruct (ltb_total _ _ Hne) as [H|H]; rewrite H, (ltb_asym _ _ H);
        simpl; by rewrite ?Hzy, ?Hzx.
Qed.

Lemma sorted_items_perm l l' :
  Permutation l l' → List.NoDup (map fst l) → sorted_items l = sorted_items l'.
Proof.
  induction 1 as [|x l l' _ IH|x y l|l l' l'' H1 IH1 H2 IH2]; intros Hnd.
  - done.
  - simpl. rewrite IH; [done|]. by inversion Hnd.
  - simpl. apply insert_by_key_comm.
    simpl in Hnd. inversion Hnd as [|? ? Hy _]. subst.
    intros Heq. apply Hy. left. done.
  - rewrite IH1 by done. apply IH2.
    eapply Permutation_NoDup; [|exact Hnd]. by apply Permutation_map.
Qed.

End sorting.

Section sorting_related.
Context {A B : Type} (R : A → B → Prop).

Lemma insert_by_key_related x y l1 l2 :
  entry_related R x y →
  List.Forall2 (entry_related R) l1 l2 →
  List.Forall2 (entry_related R) (insert_by_key x l1) (insert_by_key y l2).
Proof.
  intros Hxy. induction 1 as [|a b l1 l2 Hab Hl IH]; simpl.
  - constructor; [done | constructor].
  - rewrite <- (proj1 Hxy), <- (proj1 Hab).
    destruct (String.ltb (fst a) (fst x)).
    + constructor; done.
    + constructor; [done|]. constructor; done.
Qed.

Lemma sorted_items_related (l1 : list (string * A)) :
  ∀ l2 : list (string * B),
    List.NoDup (map fst l1) → List.NoDup (map fst l2) →
    length l1 = length l2 →
    (∀ k v, In (k, v) l1 → ∃ v', In (k, v') l2 ∧ R v v') →
    List.Forall2 (entry_related R) (sorted_items l1) (sorted_items l2).
Proof.
  induction l1 as [|[k v] l1 IH]; intros l2 Hnd1 Hnd2 Hlen Hrel.
  - destruct l2; [constructor | done].
  - destruct (Hrel k v (or_introl eq_refl)) as (v' & Hin & HR).
    apply in_split in Hin as (pre & post & ->).
    assert (Hperm : Permutation (pre ++ (k, v') :: post) ((k, v') :: pre ++ post))
      by (symmetry; apply Permutation_middle).
    rewrite (sorted_items_perm _ _ Hperm Hnd2). simpl.
    assert (Hnd2' : List.NoDup (map fst ((k, v') :: pre ++ post))).
    { eapply Permutation_NoDup; [|exact Hnd2]. by apply Permutation_map. }
    simpl in Hnd1, Hnd2'. inversion Hnd1 as [|? ? Hk1 Hnd1']. subst.
    inversion Hnd2' as [|? ? Hk2 Hnd2'']. subst.
    apply insert_by_key_related; [done|].
    apply IH; try done.
    + rewrite length_app in *. simpl in *. lia.
    + intros k1 v1 Hin1.
      destruct (Hrel k1 v1 (or_intror Hin1)) as (v1' & Hin1' & HR1).
      exists v1'. split; [|done].
      apply in_app_or in Hin1'. apply in_or_app.
      destruct Hin1' as [H|[H|H]]; [by left | | by right].
      injection H as <- <-. exfalso. apply Hk1.
      change k with (fst (k, v1)). by apply in_map.
Qed.

End sorting_related.

Lemma sorted_items_map {A B} (f : A → B) (l : list (string * A)) :
  sorted_items (map (λ kv, (fst kv, f (snd kv))) l)
  = map (λ kv, (fst kv, f (snd kv))) (sorted_items l).
Proof.
  induction l as [|x l IH]; simpl; [done|]. rewrite IH.
  generalize (sorted_items l). clear IH. intros s.
  induction s as [|y s IHs]; simpl; [done|].
  destruct (String.ltb (fst y) (fst x)); simpl; [by rewrite IHs | done].
Qed.

Section render_up_to_order.
Variable _indent_per_level _width : Z.

Local Abbreviation fmt := (PPrint._format _indent_per_level _width).

Local Abbreviation same := (same_render _indent_per_level _width).









Lemma deep_eq_entries (items2 : list (string * value)) l :
  (fix entries (l : list (string * value)) : bool :=
     match l with
     | [] => true
     | kv :: rest =>
         match dict_get (fst kv) items2 with
         | Some v' => deep_eq (snd kv) v'
         | None => false
         end && entries rest
     end) l = true →
  ∀ k v, In (k, v) l → ∃ v', In (k, v') items2 ∧ deep_eq v v' = true.
Proof.
  induction l as [|kv l IH]; intros He k v Hin; [done|].
  apply andb_true_iff in He as [Hkv He].
  destruct Hin as [->|Hin]; [|by apply IH].
  simpl in Hkv. destruct (dict_get k items2) as [v'|] eqn:E; [|done].
  exists v'. split; [by apply dict_get_In | done].
Qed.


End render_up_to_order.

Lemma insert_by_key_perm {A} (x : string * A) l : Permutation (x :: l) (insert_by_key x l).
Proof.
  induction l as [|y l IH]; simpl; [done|].
  destruct (String.ltb (fst y) (fst x)); [|done].
  rewrite perm_swap. by apply perm_skip.
Qed.

Lemma sorted_items_permutation {A} (l : list (string * A)) : Permutation l (sorted_items l).
Proof.
  induction l as [|x l IH]; simpl; [done|].
  rewrite <- insert_by_key_perm. by apply perm_skip.
Qed.

Lemma insert_by_key_sorted {A} (x : string * A) l :
  Sorted.Sorted key_le l → Sorted.Sorted key_le (insert_by_key x l).
Proof.
  induction 1 as [|y l Hl IH Hy]; simpl.
  - repeat constructor.
  - destruct (String.ltb (fst y) (fst x)) eqn:E.
    + constructor; [done|].
      destruct l as [|z l]; simpl.
      * constructor. unfold key_le. by apply ltb_asym.
      * inversion Hy; subst. destruct (String.ltb (fst z) (fst x)).
        -- by constructor.
        -- constructor. unfold key_le. by apply ltb_asym.
    + constructor; [by constructor|]. by constructor.
Qed.

Lemma sorted_items_sorted {A} (l : list (string * A)) :
  Sorted.Sorted key_le (sorted_items l).
Proof.
  induction l as [|x l IH]; simpl; [constructor|]. by apply insert_by_key_sorted.
Qed.


Lemma deep_eq_str v p : deep_eq (PStr p) v = true → v = PStr p.
Proof. destruct v; try done. simpl. intros H. apply String.eqb_eq in H. by subst. Qed.


Section generation_up_to_order.
Variable str_format : string → string → value → outcome string.
Variable EXPLICIT_CTORS : gmap string string.


End generation_up_to_order.



(* ================================================================== *)
(** ** Reading back what was written (C7) *)
(* ================================================================== *)

Import Literal.














(** *** Numbers *)
















(** *** Displays *)















(** *** What [pformat] writes is a layout *)









Section string_layout.
Variable _width : Z.







End string_layout.





Section layout.
Variable _indent_per_level _width : Z.

Local Abbreviation fmt := (PPrint._format _indent_per_level _width).




End layout.

(** *** The tree in key order *)

Lemma sorted_items_keys {A} (l : list (string * A)) :
  Permutation (map fst l) (map fst (sorted_items l)).
Proof. apply Permutation_map, sorted_items_permutation. Qed.







Lemma list_sum_insert {A} (f : string * A → nat) x l :
  list_sum (map f (insert_by_key x l)) = (f x + list_sum (map f l))%nat.
Proof.
  induction l as [|y l IH]; simpl; [done|].
  destruct (String.ltb (fst y) (fst x)); simpl; [rewrite IH|]; lia.
Qed.

Lemma list_sum_sorted {A} (f : string * A → nat) l :
  list_sum (map f (sorted_items l)) = list_sum (map f l).
Proof. induction l as [|x l IH]; simpl; [done|]. by rewrite list_sum_insert, IH. Qed.

Lemma canon_size v : size (canon v) = size v.
Proof.
  induction v as [|b|z|r|s|l IH|items IH|c r] using value_nested_ind; try done.
  - simpl. f_equal. rewrite map_map.
    induction IH as [|x l Hx _ IHl]; simpl; [done|]. by rewrite Hx, IHl.
  - cbn [canon size]. f_equal. rewrite list_sum_sorted, map_map. simpl.
    induction IH as [|x l Hx _ IHl]; simpl; [done|]. by rewrite Hx, IHl.
Qed.









(* ================================================================== *)
(** ** More about [split_provider] and [collect_providers] *)
(* ================================================================== *)

(** A string with a dot is cut at its last dot. *)
Lemma last_dot p :
  contains_char "." p = true →
  ∃ m c, p = m +:+ "." +:+ c ∧ contains_char "." c = false.
Proof.
  intros E. destruct (rcut "." p) as [[m c]|] eqn:Hcut.
  - exists m, c. by apply rcut_Some in Hcut.
  - apply rcut_None in Hcut. congruence.
Qed.

Lemma split_provider_non_string provider :
  (∀ p, provider ≠ PStr p) →
  split_provider provider
  = Raises (AttributeError
              ("'" +:+ type_name provider +:+ "' object has no attribute 'rsplit'")).
Proof. intros Hns. destruct provider; try done. by destruct (Hns s). Qed.

(** X1. [split_provider] returns the pair [(m, c)] on a string exactly when
    the string is [m], a dot and [c] with no dot in [c]: the cut is at the
    last dot, and the two parts put back around a dot give the provider. *)
Theorem split_provider_cuts_last_dot (p m c : string) :
  split_provider (PStr p) = Returns (m, c)
  ↔ p = m +:+ "." +:+ c ∧ contains_char "." c = false.
Proof.
  split.
  - intros H. apply split_provider_Returns in H as [[= ->] Hc]. done.
  - intros [-> Hc]. by apply split_provider_dotted.
Qed.

(** X2. What [split_provider] does is decided by its argument alone: on a
    string with a dot it returns, on a string without one the unpacking
    raises [ValueError], and on anything that is not a string the call of
    [rsplit] raises [AttributeError] with the name of the argument's
    type. *)
Theorem split_provider_outcomes (provider : value) :
  match provider with
  | PStr p =>
      if contains_char "." p
      then ∃ m c, split_provider provider = Returns (m, c) ∧ p = m +:+ "." +:+ c
      else split_provider provider = Raises (ValueError unpack_message)
  | _ =>
      split_provider provider
      = Raises (AttributeError
                  ("'" +:+ type_name provider +:+ "' object has no attribute 'rsplit'"))
  end.
Proof.
  destruct provider as [| | | |p| | |]; try reflexivity.
  destruct (contains_char "." p) eqn:E.
  - destruct (last_dot p E) as (m & c & -> & Hc).
    exists m, c. split; [by apply split_provider_dotted | done].
  - by apply split_provider_undotted.
Qed.

Lemma collect_values_acc (items : list (string * value)) :
  Forall (λ kv, ∀ bag, collect_providers (snd kv) bag
                       = bag ∪ collect_providers (snd kv) ∅) items →
  ∀ bag,
    (fix values (l : list (string * value)) (bag : gset string) : gset string :=
       match l with
       | [] => bag
       | kv :: rest => values rest (collect_providers (snd kv) bag)
       end) items bag
    = bag ∪
      (fix values (l : list (string * value)) (bag : gset string) : gset string :=
         match l with
         | [] => bag
         | kv :: rest => values rest (collect_providers (snd kv) bag)
         end) items ∅.
Proof.
  induction 1 as [|kv rest Hkv _ IH]; intros bag.
  - set_solver.
  - rewrite (IH (collect_providers (snd kv) bag)),
      (IH (collect_providers (snd kv) ∅)), (Hkv bag).
    set_solver.
Qed.

Lemma collect_elements_acc (l : list value) :
  Forall (λ v, ∀ bag, collect_providers v bag = bag ∪ collect_providers v ∅) l →
  ∀ bag,
    (fix elements (l : list value) (bag : gset string) : gset string :=
       match l with
       | [] => bag
       | v :: rest => elements rest (collect_providers v bag)
       end) l bag
    = bag ∪
      (fix elements (l : list value) (bag : gset string) : gset string :=
         match l with
         | [] => bag
         | v :: rest => elements rest (collect_providers v bag)
         end) l ∅.
Proof.
  induction 1 as [|v rest Hv _ IH]; intros bag.
  - set_solver.
  - rewrite (IH (collect_providers v bag)), (IH (collect_providers v ∅)), (Hv bag).
    set_solver.
Qed.

(** What a walk adds to the bag does not depend on the bag. *)
Lemma collect_providers_acc (spec : value) :
  ∀ bag, collect_providers spec bag = bag ∪ collect_providers spec ∅.
Proof.
  induction spec as [| | | | |l IH|items IH|] using value_nested_ind; intros bag;
    try (simpl; set_solver).
  - simpl. by apply collect_elements_acc.
  - simpl. rewrite (collect_values_acc items IH).
    rewrite (collect_values_acc items IH
               match dict_get "provider" items with
               | Some (PStr prov) => {[prov]} ∪ ∅
               | _ => ∅
               end).
    destruct (dict_get "provider" items) as [[]|]; set_solver.
Qed.

(** X3. The bag that [collect_providers] is given only grows, by what the
    walk finds and whatever it held: the result is the bag together with
    the result of the call without a bag. So a second walk of the same
    tree over the same bag adds nothing. *)
Theorem collect_providers_accumulates (spec : value) (bag : gset string) :
  collect_providers spec bag = bag ∪ collect_providers0 spec
  ∧ collect_providers spec (collect_providers spec bag) = collect_providers spec bag.
Proof.
  unfold collect_providers0. split.
  - apply collect_providers_acc.
  - rewrite (collect_providers_acc spec (collect_providers spec bag)).
    rewrite (collect_providers_acc spec bag). set_solver.
Qed.

(** *** The order of insertion and the canonical order *)

Lemma deep_eq_elements_In l1 :
  ∀ l2,
    (fix elements (l1 l2 : list value) : bool :=
       match l1, l2 with
       | [], [] => true
       | x :: r1, y :: r2 => deep_eq x y && elements r1 r2
       | _, _ => false
       end) l1 l2 = true →
    ∀ v, In v l1 → ∃ v', In v' l2 ∧ deep_eq v v' = true.
Proof.
  induction l1 as [|x l1 IH]; intros [|y l2] He v Hin; try done.
  apply andb_true_iff in He as [Hxy He]. destruct Hin as [->|Hin].
  - exists y. split; [by left | done].
  - destruct (IH l2 He v Hin) as (v' & Hin' & Hv). exists v'. split; [by right | done].
Qed.

Lemma entries_deep_eq (items2 : list (string * value)) l :
  (∀ k v, In (k, v) l → ∃ v', dict_get k items2 = Some v' ∧ deep_eq v v' = true) →
  (fix entries (l : list (string * value)) : bool :=
     match l with
     | [] => true
     | kv :: rest =>
         match dict_get (fst kv) items2 with
         | Some v' => deep_eq (snd kv) v'
         | None => false
         end && entries rest
     end) l = true.
Proof.
  induction l as [|[k v] l IH]; intros H; [done|].
  apply andb_true_iff. split.
  - simpl. destruct (H k v) as (v' & -> & Hv); [by left | done].
  - apply IH. intros k' v' Hin. apply H. by right.
Qed.

(** Two trees that are the same up to the order of insertion have the same
    canonical form. *)
Lemma deep_eq_canon_eq a :
  ∀ b, wf_value a = true → wf_value b = true → deep_eq a b = true → canon a = canon b.
Proof.
  induction a as [|x|x|x|x|l1 IH|items1 IH|c x] using value_nested_ind;
    intros b Hwa Hwb He; destruct b; try done; simpl in He.
  - apply Bool.eqb_prop in He. by subst.
  - apply Z.eqb_eq in He. by subst.
  - apply String.eqb_eq in He. by subst.
  - apply String.eqb_eq in He. by subst.
  - (* lists *)
    simpl in Hwa, Hwb. simpl. f_equal.
    revert l Hwa Hwb He. induction IH as [|x l1 Hx _ IHl]; intros [|y l] Hw1 Hw2 He;
      try done.
    simpl in Hw1, Hw2. apply andb_true_iff in Hw1 as [Hwx Hw1].
    apply andb_true_iff in Hw2 as [Hwy Hw2]. apply andb_true_iff in He as [Hxy He].
    simpl. f_equal; auto.
  - (* dicts *)
    apply andb_true_iff in He as [Hlen He]. apply Nat.eqb_eq in Hlen.
    simpl in Hwa, Hwb. apply andb_true_iff in Hwa as [Hd1 Hw1].
    apply andb_true_iff in Hwb as [Hd2 Hw2].
    rewrite forallb_forall in Hw1, Hw2. rewrite List.Forall_forall in IH.
    assert (Hrel : List.Forall2 (entry_related (λ v v', canon v = canon v'))
                     (sorted_items items1) (sorted_items items)).
    { apply sorted_items_related; try done; try by apply distinct_NoDup.
      intros k v Hin.
      destruct (deep_eq_entries items items1 He k v Hin) as (v' & Hin' & Hvv').
      exists v'. split; [done|].
      apply (IH (k, v) Hin v'); [exact (Hw1 _ Hin) | exact (Hw2 _ Hin') | done]. }
    simpl. f_equal. rewrite !(sorted_items_map canon).
    clear -Hrel. induction Hrel as [|[k v] [k' v'] ? ? [Hk Hv] _ IHr]; [done|].
    simpl in Hk, Hv. simpl. by rewrite Hk, Hv, IHr.
  - apply andb_true_iff in He as [H1 H2].
    apply String.eqb_eq in H1, H2. by subst.
Qed.

(** And two trees with the same canonical form are the same up to the
    order of insertion. *)
Lemma canon_eq_deep_eq a :
  ∀ b, wf_value a = true → wf_value b = true → canon a = canon b → deep_eq a b = true.
Proof.
  induction a as [|x|x|x|x|l1 IH|items1 IH|c x] using value_nested_ind;
    intros b Hwa Hwb He; destruct b; try done; simpl in He;
    try (injection He as <-); try (injection He as <- <-); simpl.
  - by destruct x.
  - apply Z.eqb_refl.
  - apply String.eqb_refl.
  - apply String.eqb_refl.
  - (* lists *)
    injection He as He. simpl in Hwa, Hwb.
    revert l Hwa Hwb He. induction IH as [|x l1 Hx _ IHl]; intros [|y l] Hw1 Hw2 He;
      try done.
    simpl in Hw1, Hw2, He. apply andb_true_iff in Hw1 as [Hwx Hw1].
    apply andb_true_iff in Hw2 as [Hwy Hw2]. injection He as Hxy He.
    apply andb_true_iff. split; auto.
  - (* dicts *)
    injection He as He.
    simpl in Hwa, Hwb. apply andb_true_iff in Hwa as [Hd1 Hw1].
    apply andb_true_iff in Hwb as [Hd2 Hw2].
    rewrite forallb_forall in Hw1, Hw2. rewrite List.Forall_forall in IH.
    apply andb_true_iff. split.
    + apply Nat.eqb_eq.
      pose proof (Permutation_length (sorted_items_permutation
                    (map (λ kv : string * value, (fst kv, canon (snd kv))) items1))) as H1.
      pose proof (Permutation_length (sorted_items_permutation
                    (map (λ kv : string * value, (fst kv, canon (snd kv))) items))) as H2.
      rewrite He in H1. rewrite !length_map in H1, H2. congruence.
    + apply entries_deep_eq. intros k v Hin.
      assert (Hin' : In (k, canon v)
                       (map (λ kv : string * value, (fst kv, canon (snd kv))) items)).
      { eapply Permutation_in; [symmetry; apply sorted_items_permutation|].
        rewrite <- He. eapply Permutation_in; [apply sorted_items_permutation|].
        apply in_map_iff. by exists (k, v). }
      apply in_map_iff in Hin' as ([k' v'] & [= -> Hc] & Hin').
      exists v'. split; [by apply In_dict_get|].
      apply (IH (k, v) Hin v'); [exact (Hw1 _ Hin) | exact (Hw2 _ Hin') | done].
  - subst. by rewrite !String.eqb_refl.
Qed.

Lemma deep_eq_sym a b :
  wf_value a = true → wf_value b = true → deep_eq a b = true → deep_eq b a = true.
Proof.
  intros Hwa Hwb He. apply canon_eq_deep_eq; try done.
  symmetry. by apply deep_eq_canon_eq.
Qed.

Lemma provider_in_deep_eq p a :
  provider_in p a → ∀ b, deep_eq a b = true → provider_in p b.
Proof.
  induction 1 as [items Hin|items k v Hin _ IH|l v Hin _ IH]; intros b He;
    destruct b as [| | | | |l2|items2|]; try done; simpl in He.
  - apply andb_true_iff in He as [_ He].
    destruct (deep_eq_entries items2 items He _ _ Hin) as (v' & Hin' & Hv).
    apply deep_eq_str in Hv as ->. by apply provider_here.
  - apply andb_true_iff in He as [_ He].
    destruct (deep_eq_entries items2 items He _ _ Hin) as (v' & Hin' & Hv).
    eapply provider_in_value; [exact Hin' | by apply IH].
  - destruct (deep_eq_elements_In l l2 He v Hin) as (v' & Hin' & Hv).
    eapply provider_in_element; [exact Hin' | by apply IH].
Qed.

(** X4. The set that [collect_providers] returns does not depend on the
    order in which the keys of the dicts were inserted. *)
Theorem collect_providers_order_insensitive (a b : value) :
  wf_value a = true → wf_value b = true → deep_eq a b = true →
  collect_providers0 a = collect_providers0 b.
Proof.
  intros Hwa Hwb He. apply set_eq. intros p. unfold collect_providers0.
  rewrite (collect_providers_spec p a Hwa ∅), (collect_providers_spec p b Hwb ∅).
  pose proof (deep_eq_sym a b Hwa Hwb He) as He'.
  split; (intros [H|H]; [by left | right]); eapply provider_in_deep_eq; eauto.
Qed.

Lemma collect_providers_order_insensitive_witness :
  collect_providers0 example_A = collect_providers0 example_A_reordered.
Proof. apply collect_providers_order_insensitive; reflexivity. Defined.




(* ================================================================== *)
(** ** More about [emit_builder] and the run *)
(* ================================================================== *)

Section builder_more.
Variable str_format : string → string → value → outcome string.

(** The table matters through the template it yields for the provider. *)
Lemma emit_builder_template_ext (registry1 registry2 : gmap string string) spec var imports :
  (∀ provider, template_for registry1 provider = template_for registry2 provider) →
  emit_builder str_format registry1 spec var imports
  = emit_builder str_format registry2 spec var imports.
Proof.
  intros Hsame. destruct (has_provider_key spec) eqn:Hk.
  2:{ by rewrite !emit_builder_guard_fires. }
  destruct spec; try done. simpl in Hk. unfold dict_contains in Hk.
  destruct (dict_get "provider" items) as [provider|] eqn:Hp; [|done].
  by rewrite !(emit_builder_steps _ _ _ _ _ _ Hp), Hsame.
Qed.

Lemma template_for_empty (registry : gmap string string) p provider :
  template_for (<[p := EmptyString]> registry) provider
  = template_for (delete p registry) provider.
Proof.
  unfold template_for. destruct provider as [| | | |q| | |]; try done.
  destruct (decide (p = q)) as [->|Hne].
  - by rewrite lookup_insert_eq, lookup_delete_eq.
  - by rewrite lookup_insert_ne, lookup_delete_ne.
Qed.

End builder_more.


(** X7. When the table holds a template that is not empty under the root's
    provider, the import is recorded first and the code is whatever
    [str.format] makes of the template, the variable and the whole root
    dict: no literal is written. When the formatting raises, its exception
    is the builder's, and the caller's set has the import all the same. *)
Theorem template_branch
    (str_format : string → string → value → outcome string)
    (EXPLICIT_CTORS : gmap string string)
    (items : list (string * value)) (m c template var : string)
    (imports : gset (string * string)) :
  dict_get "provider" items = Some (PStr (m +:+ "." +:+ c)) →
  contains_char "." c = false →
  EXPLICIT_CTORS !! (m +:+ "." +:+ c) = Some template →
  template ≠ EmptyString →
  emit_builder str_format EXPLICIT_CTORS (PDict items) var imports
  = ({[(m, c)]} ∪ imports,
     match str_format template var (PDict items) with
     | Returns code => Returns (code, {[(m, c)]} ∪ imports)
     | Raises e => Raises e
     end).
Proof.
  intros Hp Hdot Hreg Hne.
  rewrite (emit_builder_steps _ _ _ _ _ _ Hp), (split_provider_dotted _ _ Hdot).
  assert (template_for EXPLICIT_CTORS (PStr (m +:+ "." +:+ c)) = Some template) as ->.
  { unfold template_for. rewrite Hreg.
    destruct (String.eqb template EmptyString) eqn:E; [|done].
    by apply String.eqb_eq in E. }
  cbv zeta. by destruct (str_format template var (PDict items)).
Qed.

Lemma template_branch_witness :
  emit_builder format_failing example_registry example_A "team" ∅
  = ({[("ns", "TeamX")]} ∪ ∅,
     match format_failing "{var} = TeamX()" "team" example_A with
     | Returns code => Returns (code, {[("ns", "TeamX")]} ∪ ∅)
     | Raises e => Raises e
     end).
Proof.
  apply (template_branch format_failing example_registry _ "ns" "TeamX");
    [reflexivity | reflexivity | reflexivity | discriminate].
Defined.

(** X8. A template that is the empty string counts as no template: with it
    in the table under some provider, the builder and the run do what they
    do with no entry under that provider, whatever the document. *)
Theorem empty_template_is_no_template
    (str_format : string → string → value → outcome string)
    (EXPLICIT_CTORS : gmap string string)
    (p json_name var : string) (spec : value) (imports : gset (string * string)) :
  emit_builder str_format (<[p := EmptyString]> EXPLICIT_CTORS) spec var imports
  = emit_builder str_format (delete p EXPLICIT_CTORS) spec var imports
  ∧ generate_python_from_json str_format (<[p := EmptyString]> EXPLICIT_CTORS) json_name spec
    = generate_python_from_json str_format (delete p EXPLICIT_CTORS) json_name spec.
Proof.
  split.
  - apply emit_builder_template_ext, template_for_empty.
  - unfold generate_python_from_json.
    by rewrite (emit_builder_template_ext str_format _ (delete p EXPLICIT_CTORS)
                  spec "team" ∅ (template_for_empty EXPLICIT_CTORS p)).
Qed.

(** X9. A root whose ["provider"] is not a string passes the guard and
    fails in [split_provider]: the builder and the run raise
    [AttributeError] with the name of the value's type, and the caller's
    set of imports is left as it was. *)
Theorem non_string_provider_fails
    (str_format : string → string → value → outcome string)
    (EXPLICIT_CTORS : gmap string string)
    (items : list (string * value)) (provider : value) (var json_name : string)
    (imports : gset (string * string)) :
  dict_get "provider" items = Some provider →
  (∀ p, provider ≠ PStr p) →
  emit_builder str_format EXPLICIT_CTORS (PDict items) var imports
  = (imports,
     Raises (AttributeError
               ("'" +:+ type_name provider +:+ "' object has no attribute 'rsplit'")))
  ∧ generate_python_from_json str_format EXPLICIT_CTORS json_name (PDict items)
    = Raises (AttributeError
                ("'" +:+ type_name provider +:+ "' object has no attribute 'rsplit'")).
Proof.
  intros Hp Hns. pose proof (split_provider_non_string _ Hns) as Hs.
  split.
  - by rewrite (emit_builder_steps _ _ _ _ _ _ Hp), Hs.
  - unfold generate_python_from_json.
    by rewrite (emit_builder_steps _ _ _ _ _ _ Hp), Hs.
Qed.

Lemma non_string_provider_fails_witness :
  emit_builder format_verbatim EXPLICIT_CTORS_shipped example_numeric_provider "team" ∅
  = (∅, Raises (AttributeError ("'" +:+ type_name (PInt 5)
                                 +:+ "' object has no attribute 'rsplit'")))
  ∧ generate_python_from_json format_verbatim EXPLICIT_CTORS_shipped "team-config.json"
      example_numeric_provider
    = Raises (AttributeError ("'" +:+ type_name (PInt 5)
                              +:+ "' object has no attribute 'rsplit'")).
Proof.
  apply (non_string_provider_fails format_verbatim EXPLICIT_CTORS_shipped _ (PInt 5));
    [reflexivity | discriminate].
Defined.





(* ================================================================== *)
(** ** The import statements of any set of pairs *)
(* ================================================================== *)

(** The table after the loop over the set: under each module, the classes
    that the set pairs it with. *)
Lemma group_by_module_lookup (import_set : gset (string * string)) (m : string) :
  match group_by_module import_set !! m with
  | Some classes => (∃ c, (m, c) ∈ import_set) ∧ ∀ c, c ∈ classes ↔ (m, c) ∈ import_set
  | None => ∀ c, (m, c) ∉ import_set
  end.
Proof.
  unfold group_by_module. revert m.
  apply (set_fold_ind_L
           (λ (by_module : gmap string (gset string)) (X : gset (string * string)),
              ∀ m, match by_module !! m with
                   | Some classes => (∃ c, (m, c) ∈ X) ∧ ∀ c, c ∈ classes ↔ (m, c) ∈ X
                   | None => ∀ c, (m, c) ∉ X
                   end)).
  - intros m. rewrite lookup_empty. set_solver.
  - intros [m0 c0] X by_module Hfresh IH m. simpl.
    destruct (decide (m0 = m)) as [->|Hne].
    + rewrite lookup_insert_eq. specialize (IH m). split; [exists c0; set_solver|].
      intros c. destruct (by_module !! m) as [classes|]; simpl.
      * destruct IH as [_ IH]. specialize (IH c). set_solver.
      * specialize (IH c). set_solver.
    + rewrite lookup_insert_ne by done. specialize (IH m).
      destruct (by_module !! m) as [classes|].
      * destruct IH as [[c Hc] IH]. split; [exists c; set_solver|].
        intros c'. specialize (IH c'). set_solver.
      * intros c. specialize (IH c). set_solver.
Qed.

Lemma str_lt_trans : Relations_1.Transitive str_lt.
Proof. intros a b c. apply ltb_trans. Qed.

(** Ascending keys that are pairwise distinct are strictly ascending. *)
Lemma sorted_keys_strict {A} (l : list (string * A)) :
  Sorted.Sorted key_le l → List.NoDup (map fst l) →
  Sorted.StronglySorted str_lt (map fst l).
Proof.
  intros Hs Hnd. apply Sorted.Sorted_StronglySorted; [exact str_lt_trans|].
  induction Hs as [|x l _ IH Hhd]; simpl; [constructor|].
  inversion Hnd as [|? ? Hx Hnd']; subst. constructor; [by apply IH|].
  destruct Hhd as [|y l Hxy]; simpl; constructor.
  unfold key_le in Hxy. unfold str_lt.
  destruct (ltb_total (fst x) (fst y)) as [H|H]; [|done|congruence].
  intros Heq. apply Hx. simpl. by left.
Qed.

(** [sorted] on distinct strings: strictly ascending, with the same
    strings. *)
Lemma sorted_strs_spec (l : list string) :
  List.NoDup l →
  Sorted.StronglySorted str_lt (sorted_strs l) ∧ ∀ s, In s (sorted_strs l) ↔ In s l.
Proof.
  intros Hnd. unfold sorted_strs.
  assert (Hkeys : map fst (map (λ s : string, (s, tt)) l) = l).
  { rewrite map_map. simpl. apply map_id. }
  pose proof (sorted_items_keys (map (λ s : string, (s, tt)) l)) as Hperm.
  rewrite Hkeys in Hperm. split.
  - apply sorted_keys_strict; [apply sorted_items_sorted|].
    eapply Permutation_NoDup; [exact Hperm | done].
  - intros s. split; intros H.
    + eapply Permutation_in; [symmetry; exact Hperm | done].
    + eapply Permutation_in; [exact Hperm | done].
Qed.

(** X12. The grouping of lines 164 to 166, for any set of pairs: the table
    has a module as a key exactly when the set pairs it with some class,
    and holds under it exactly the classes the set pairs it with. *)
Theorem group_by_module_groups (import_set : gset (string * string))
    (m : string) (classes : gset string) :
  group_by_module import_set !! m = Some classes
  ↔ (∃ c, (m, c) ∈ import_set) ∧ ∀ c, c ∈ classes ↔ (m, c) ∈ import_set.
Proof.
  pose proof (group_by_module_lookup import_set m) as H. split.
  - intros E. by rewrite E in H.
  - intros [[c Hc] Hcl]. destruct (group_by_module import_set !! m) as [classes'|].
    + f_equal. apply set_eq. intros c'. destruct H as [_ H]. by rewrite H, Hcl.
    + by destruct (H c).
Qed.

(** X13. The import statements of line 168, for any set of pairs: one
    statement per module, the modules strictly ascending, each statement
    listing its classes strictly ascending and separated by a comma and a
    space; a class stands in the statement of a module exactly when the
    pair is in the set. So no module has two statements and no statement
    names a class twice. *)
Theorem import_lines_sorted_grouped (import_set : gset (string * string)) :
  ∃ groups : list (string * list string),
    import_lines import_set
    = map (λ g, "from " +:+ fst g +:+ " import " +:+ join ", " (snd g)) groups
    ∧ Sorted.StronglySorted str_lt (map fst groups)
    ∧ Forall (λ g, Sorted.StronglySorted str_lt (snd g)) groups
    ∧ ∀ m c, (m, c) ∈ import_set ↔ ∃ classes, In (m, classes) groups ∧ In c classes.
Proof.
  set (table := sorted_items (map_to_list (group_by_module import_set))).
  assert (Hperm : Permutation (map_to_list (group_by_module import_set)) table)
    by apply sorted_items_permutation.
  assert (Hin : ∀ m cs, In (m, cs) table ↔ group_by_module import_set !! m = Some cs).
  { intros m cs. rewrite <- elem_of_map_to_list, list_elem_of_In. split; intros H.
    - eapply Permutation_in; [symmetry; exact Hperm | done].
    - eapply Permutation_in; [exact Hperm | done]. }
  exists (map (λ mc : string * gset string,
                 (fst mc, sorted_strs (elements (snd mc)))) table).
  split; [|split; [|split]].
  - unfold import_lines. fold table. rewrite map_map. done.
  - rewrite map_map. simpl. apply sorted_keys_strict; [apply sorted_items_sorted|].
    eapply Permutation_NoDup; [apply Permutation_map; exact Hperm|].
    apply NoDup_ListNoDup. exact (NoDup_fst_map_to_list (group_by_module import_set)).
  - apply List.Forall_forall. intros g Hg.
    apply in_map_iff in Hg as (mc & <- & _). simpl.
    apply sorted_strs_spec, NoDup_ListNoDup, NoDup_elements.
  - intros m c. split.
    + intros Hmc. pose proof (group_by_module_lookup import_set m) as H.
      destruct (group_by_module import_set !! m) as [cs|] eqn:E; [|by destruct (H c)].
      exists (sorted_strs (elements cs)). split.
      * apply in_map_iff. exists (m, cs). split; [done | by apply Hin].
      * apply sorted_strs_spec; [apply NoDup_ListNoDup, NoDup_elements|].
        apply list_elem_of_In, elem_of_elements. by apply H.
    + intros (classes & Hg & Hc).
      apply in_map_iff in Hg as ([m' cs] & [= -> <-] & Hg). simpl in Hc.
      apply Hin in Hg. pose proof (group_by_module_lookup import_set m) as H.
      rewrite Hg in H. destruct H as [_ H]. apply H.
      destruct (sorted_strs_spec (elements cs)) as [_ Hmem];
        [apply NoDup_ListNoDup, NoDup_elements|].
      apply Hmem in Hc. by apply elem_of_elements, list_elem_of_In.
Qed.


(* ================================================================== *)
(** ** More about [dict_to_python_literal] *)
(* ================================================================== *)





